(** * rust-monaco generator: [generator/gen/js_enum.py]

    A shallow embedding of the enum translator: the two anchored patterns, the
    [Variant] and [JsEnum] dataclasses with their [consume], [get_value_type],
    [macro] and [to_rust] methods, and the properties of them.

    Text.  A Python [str] is a sequence of code points.  Here it is a
    [string] whose characters are the code points U+0000..U+00FF, one
    [ascii] each; the character classes below ([str.isnumeric], the
    pattern classes [\w] and [.]) are Python's on that range. *)

From Stdlib Require Import String Ascii List Bool Arith Lia.
Import ListNotations.
Open Scope string_scope.

Set Implicit Arguments.

(* ------------------------------------------------------------------ *)
(** ** Characters *)

Definition LF : ascii := "010"%char.
Definition DQUOTE : ascii := "034"%char.
Definition COMMA : ascii := ","%char.
Definition SP : ascii := " "%char.

(** The one-character string holding a line feed: Python's ["\n"]. *)
Definition nl : string := String LF "".

Definition code (c : ascii) : nat := nat_of_ascii c.

Definition between (lo hi n : nat) : bool := ((lo <=? n) && (n <=? hi))%nat.

(** [c.isdecimal()]: the decimal digits 0-9. *)
Definition isdecimal_char (c : ascii) : bool := between 48 57 (code c).

(** [c.isdigit()]: the decimal digits and the superscripts U+00B2, U+00B3,
    U+00B9. *)
Definition isdigit_char (c : ascii) : bool :=
  isdecimal_char c || between 178 179 (code c) || (code c =? 185)%nat.

(** [c.isnumeric()]: the digits and the vulgar fractions U+00BC..U+00BE. *)
Definition isnumeric_char (c : ascii) : bool :=
  isdigit_char c || between 188 190 (code c).

(** [c.isalpha()]: A-Z, a-z, U+00AA, U+00B5, U+00BA, U+00C0..U+00D6,
    U+00D8..U+00F6, U+00F8..U+00FF. *)
Definition isalpha_char (c : ascii) : bool :=
  let n := code c in
  between 65 90 n || between 97 122 n
  || (n =? 170)%nat || (n =? 181)%nat || (n =? 186)%nat
  || between 192 214 n || between 216 246 n || between 248 255 n.

(** The pattern class [\w] of a [str] pattern: alphanumeric or underscore. *)
Definition isword_char (c : ascii) : bool :=
  isalpha_char c || isnumeric_char c || (code c =? 95)%nat.

Fixpoint all_chars (p : ascii -> bool) (s : string) : bool :=
  match s with
  | EmptyString => true
  | String c s' => p c && all_chars p s'
  end.

(** [s.isnumeric()]: at least one character, and all of them numeric. *)
Definition isnumeric (s : string) : bool :=
  match s with
  | EmptyString => false
  | String _ _ => all_chars isnumeric_char s
  end.

(** [s.startswith(p)]. *)
Fixpoint startswith (s p : string) {struct p} : bool :=
  match p with
  | EmptyString => true
  | String a p' =>
      match s with
      | EmptyString => false
      | String b s' => Ascii.eqb a b && startswith s' p'
      end
  end.

(** [s.lstrip(" ")]. *)
Fixpoint lstrip (s : string) : string :=
  match s with
  | String c s' => if Ascii.eqb c SP then lstrip s' else s
  | EmptyString => ""
  end.

(* ------------------------------------------------------------------ *)
(** ** Exceptions and results *)

(** The exceptions the module raises.  The two inference errors carry the
    fixed part of their message; the [repr] of the offending object that the
    f-string appends is left out, so two raises that differ only in that
    [repr] are one value here. *)
Inductive exn : Type :=
| ParseError
| TypeError (msg : string)
| ValueError (msg : string)
| KeyError
| IndexError.

Inductive result (A : Type) : Type :=
| OK (a : A)
| Raise (e : exn).

Arguments OK {A} a.
Arguments Raise {A} e.

Definition bind {A B} (r : result A) (k : A -> result B) : result B :=
  match r with
  | OK a => k a
  | Raise e => Raise e
  end.

Notation "x <- r ;; k" := (bind r (fun x => k))
  (at level 61, r at next level, right associativity).
Notation "' p <- r ;; k" := (bind r (fun p => k))
  (at level 61, p pattern, r at next level, right associativity).

(** The two classes [get_value_type] returns: Python's [int] and [str]. *)
Inductive py_type : Type := int | str.

Definition py_type_eqb (a b : py_type) : bool :=
  match a, b with
  | int, int | str, str => true
  | _, _ => false
  end.

(* ------------------------------------------------------------------ *)
(** ** Anchored patterns

    The fragment of [re] the two compiled patterns use: literals, one
    character class under a greedy [*] or [+] or a lazy [+?], and named
    groups, in sequence, anchored at the start of the text. *)

Inductive charset : Type :=
| Space            (* the literal space *)
| Word             (* \w *)
| Dot.             (* .  : anything but a line feed *)

Definition in_charset (cs : charset) (c : ascii) : bool :=
  match cs with
  | Space => Ascii.eqb c SP
  | Word => isword_char c
  | Dot => negb (Ascii.eqb c LF)
  end.

Inductive token : Type :=
| Lit (s : string)
| Star (cs : charset)
| Plus (cs : charset)
| LazyPlus (cs : charset)
| Group (name : string) (t : token).

Definition pattern := list token.

(** The non-empty prefixes of [s] made of characters of [cs], paired with
    what follows them, shortest first. *)
Fixpoint lazy_splits (cs : charset) (s : string) : list (string * string) :=
  match s with
  | EmptyString => []
  | String c s' =>
      if in_charset cs c
      then (String c "", s')
             :: map (fun mr => (String c (fst mr), snd mr)) (lazy_splits cs s')
      else []
  end.

Fixpoint drop (n : nat) (s : string) : string :=
  match n, s with
  | S n', String _ s' => drop n' s'
  | _, _ => s
  end.

(** The ways a token can match at the start of [s], in the order the
    backtracking matcher tries them. *)
Fixpoint candidates (t : token) (s : string) : list (string * string) :=
  match t with
  | Lit l => if startswith s l then [(l, drop (String.length l) s)] else []
  | Star cs => (rev (lazy_splits cs s) ++ [("", s)])%list
  | Plus cs => rev (lazy_splits cs s)
  | LazyPlus cs => lazy_splits cs s
  | Group _ t' => candidates t' s
  end.

(** A match object: the named groups with the text each one captured. *)
Definition match_object := list (string * string).

Definition captured (t : token) (m : string) : match_object :=
  match t with
  | Group name _ => [(name, m)]
  | _ => []
  end.

Fixpoint first_some {A B} (f : A -> option B) (l : list A) : option B :=
  match l with
  | [] => None
  | a :: l' =>
      match f a with
      | Some b => Some b
      | None => first_some f l'
      end
  end.

(** [p.match(s)]: the first match of the whole sequence in backtracking
    order, as the groups and the text after the match. *)
Fixpoint re_match (p : pattern) (s : string) : option (match_object * string) :=
  match p with
  | [] => Some ([], s)
  | t :: p' =>
      first_some
        (fun mr =>
           match re_match p' (snd mr) with
           | Some (g, rest) => Some ((captured t (fst mr) ++ g)%list, rest)
           | None => None
           end)
        (candidates t s)
  end.

(** [match[name]]. *)
Fixpoint group (m : match_object) (name : string) : result string :=
  match m with
  | [] => Raise IndexError
  | (n, v) :: m' => if String.eqb n name then OK v else group m' name
  end.

(** [_PATTERN_VARIANT = re.compile(r"^ *(?P<ident>\w+) = (?P<value>.+?),\n")] *)
Definition _PATTERN_VARIANT : pattern :=
  [Star Space; Group "ident" (Plus Word); Lit " = ";
   Group "value" (LazyPlus Dot); Lit ("," ++ nl)].

(** [_PATTERN_ENUM_OPEN = re.compile(r"^ *export enum (?P<ident>\w+) \{\n")] *)
Definition _PATTERN_ENUM_OPEN : pattern :=
  [Star Space; Lit "export enum "; Group "ident" (Plus Word); Lit (" {" ++ nl)].

(* ------------------------------------------------------------------ *)
(** ** The imported helpers *)

(** Modelled from the spec: [helpers.consume_match], whose module is not
    among the sources.  Spec 4.2: fail with [ParseError] if the text does not
    begin with a match; otherwise return the match and the remaining text
    with the match removed. *)
Definition consume_match (p : pattern) (s : string)
  : result (match_object * string) :=
  match re_match p s with
  | Some (m, rest) => OK (m, rest)
  | None => Raise ParseError
  end.

Definition nonempty (s : string) : bool :=
  match s with
  | EmptyString => false
  | String _ _ => true
  end.

(** Modelled from the spec: [helpers.join_nonempty_lines], whose module is
    not among the sources.  Spec 4.6: the documentation lines, when there are
    any, then the declaration line; the parts that are empty are left out
    and the others joined by line feeds. *)
Definition join_nonempty_lines (lines : list string) : string :=
  String.concat nl (filter nonempty lines).

(** The other functions [js_enum.py] imports from [helpers] and [models].
    Their modules are not among the sources, so they are an interface:
    every definition below takes them as given, pure and total. *)
Class Helpers : Type := {
  add_indent : string -> string;
  consume_empty_lines : string -> string;
  read_until_closing_bracket : string -> result (string * string);
  snake_to_camel_case : string -> string;
  (** [Documented.consume]: the documentation and the remaining text. *)
  Documented_consume : string -> option (list string) * string;
  (** [Documented.rust_documentation], from the [documentation] field. *)
  rust_documentation : option (list string) -> string
}.

(** [r] is what is left of [s] after a prefix of it is removed. *)
Definition suffix_of (r s : string) : Prop := exists p, s = p ++ r.

(** What spec 4.1 and 4.2 say of the two cursor helpers that cannot fail:
    each one removes text at the current position and returns the rest. *)
Class HelperLaws (H : Helpers) : Prop := {
  Documented_consume_suffix :
    forall s, suffix_of (snd (Documented_consume s)) s;
  consume_empty_lines_suffix :
    forall s, suffix_of (consume_empty_lines s) s
}.

(* ------------------------------------------------------------------ *)
(** ** [class Variant(Documented)] *)

Module Variant.

Record t : Type := Build {
  documentation : option (list string);
  ident : string;
  value : string
}.

Definition get_value_type (self : t) : result py_type :=
  if startswith (value self) (String DQUOTE "") then OK str
  else if isnumeric (value self) then OK int
  else Raise (TypeError "can't infer value type for variant").

Section Methods.
Context {H : Helpers}.

Definition consume (s : string) : result (t * string) :=
  let (doc, s) := Documented_consume s in
  ' (m, s) <- consume_match _PATTERN_VARIANT s ;;
  let s := consume_empty_lines s in
  i <- group m "ident" ;;
  v <- group m "value" ;;
  OK (Build doc i v, s).

(** The line [f"{ident} = {self.value},"]. *)
Definition declaration_line (self : t) : string :=
  snake_to_camel_case (ident self) ++ " = " ++ value self ++ ",".

Definition to_rust (self : t) : string :=
  join_nonempty_lines
    [rust_documentation (documentation self); declaration_line self].

End Methods.

End Variant.

(* ------------------------------------------------------------------ *)
(** ** [class JsEnum(Documented)] *)

Module JsEnum.

Record t : Type := Build {
  documentation : option (list string);
  ident : string;
  variants : list Variant.t
}.

(** [_TYPE2MACRO = {int: "int_enum!", str: "str_enum!"}] *)
Definition _TYPE2MACRO : list (py_type * string) :=
  [(int, "int_enum!"); (str, "str_enum!")].

(** [d[k]] on a dict: the value of the key, [KeyError] without it. *)
Fixpoint getitem (d : list (py_type * string)) (k : py_type) : result string :=
  match d with
  | [] => Raise KeyError
  | (k', v) :: d' => if py_type_eqb k' k then OK v else getitem d' k
  end.

(** [all(ty == first_ty for ty in it)] over the generator [it], given as
    the variants it has not pulled yet.  The second component is what the
    generator still holds when [all] stops: these variants were never
    classified. *)
Fixpoint all_same (first_ty : py_type) (it : list Variant.t)
  : result bool * list Variant.t :=
  match it with
  | [] => (OK true, [])
  | v :: it' =>
      match Variant.get_value_type v with
      | Raise e => (Raise e, it')
      | OK ty =>
          if py_type_eqb ty first_ty then all_same first_ty it'
          else (OK false, it')
      end
  end.

(** The body of [get_value_type], with the variants the generator never
    reached beside its outcome. *)
Definition run_get_value_type (self : t) : result py_type * list Variant.t :=
  match variants self with
  | [] => (Raise (ValueError "can't infer value type for empty enum"), [])
  | v :: it =>
      match Variant.get_value_type v with
      | Raise e => (Raise e, it)
      | OK first_ty =>
          match all_same first_ty it with
          | (Raise e, it') => (Raise e, it')
          | (OK true, it') => (OK first_ty, it')
          | (OK false, it') =>
              (Raise (TypeError "enum has multiple conflicting value types"),
               it')
          end
      end
  end.

Definition get_value_type (self : t) : result py_type :=
  fst (run_get_value_type self).

Definition macro (self : t) : result string :=
  ty <- get_value_type self ;;
  getitem _TYPE2MACRO ty.

Section Methods.
Context {H : Helpers}.

(** The loop [while body: variant, body = Variant.consume(body);
    variants.append(variant)].  [None]: the loop is still running when
    the fuel is spent. *)
Fixpoint consume_body (fuel : nat) (body : string) (variants : list Variant.t)
  : option (result (list Variant.t)) :=
  if nonempty body then
    match fuel with
    | O => None
    | S fuel' =>
        match Variant.consume body with
        | Raise e => Some (Raise e)
        | OK (variant, body') =>
            consume_body fuel' body' (variants ++ [variant])%list
        end
    end
  else Some (OK variants).

(** [consume].  The enum object is built before the loop around the list
    the loop appends to, so on return its [variants] field is that list
    after the last append.  The loop gets one unit of fuel per character
    of the body. *)
Definition consume (s : string) : option (result (t * string)) :=
  let (doc, s) := Documented_consume s in
  match consume_match _PATTERN_ENUM_OPEN s with
  | Raise e => Some (Raise e)
  | OK (m, s) =>
      let s := consume_empty_lines s in
      match group m "ident" with
      | Raise e => Some (Raise e)
      | OK i =>
          match read_until_closing_bracket s with
          | Raise e => Some (Raise e)
          | OK (body, s) =>
              let s := consume_empty_lines s in
              match consume_body (String.length body) body [] with
              | None => None
              | Some (Raise e) => Some (Raise e)
              | Some (OK variants) => Some (OK (Build doc i variants, s))
              end
          end
      end
  end.

(** ["\n".join(variant.to_rust() for variant in self.variants)] *)
Definition enum_body (self : t) : string :=
  String.concat nl (map Variant.to_rust (variants self)).

(** [f"pub enum {self.ident} {{\n{add_indent(enum_body)}\n}}"] *)
Definition macro_body (self : t) : string :=
  "pub enum " ++ ident self ++ " {" ++ nl
    ++ add_indent (enum_body self) ++ nl ++ "}".

Definition to_rust (self : t) : result string :=
  let macro_body := macro_body self in
  m <- macro self ;;
  OK (m ++ " {" ++ nl ++ add_indent macro_body ++ nl ++ "}").

End Methods.

End JsEnum.

(* ------------------------------------------------------------------ *)
(** ** A reference implementation of the helper interface

    One implementation of [Helpers] that keeps to the spec's words, used to
    run the translator on concrete text. *)

Module SpecModel.

Definition INDENT : string := "    ".

Fixpoint indent_lines (s : string) : string :=
  match s with
  | EmptyString => ""
  | String c s' =>
      if Ascii.eqb c LF then String LF (INDENT ++ indent_lines s')
      else String c (indent_lines s')
  end.

(** Modelled from the spec: [helpers.add_indent] (absent).  Spec 4.6:
    every line indented one level; a level is taken to be four spaces. *)
Definition add_indent (s : string) : string := INDENT ++ indent_lines s.

(** Modelled from the spec: [helpers.consume_empty_lines] (absent).  Spec
    4.2: remove any run of empty lines at the current position. *)
Fixpoint consume_empty_lines (s : string) : string :=
  match s with
  | String c s' => if Ascii.eqb c LF then consume_empty_lines s' else s
  | EmptyString => ""
  end.

Fixpoint scan_bracket (depth : nat) (s : string) : option (string * string) :=
  match s with
  | EmptyString => None
  | String c s' =>
      let keep (d : nat) :=
        match scan_bracket d s' with
        | Some (body, rest) => Some (String c body, rest)
        | None => None
        end in
      if Ascii.eqb c "}" then
        match depth with
        | O => Some ("", s')
        | S d => keep d
        end
      else if Ascii.eqb c "{" then keep (S depth)
      else keep depth
  end.

(** Modelled from the spec: [helpers.read_until_closing_bracket] (absent).
    Spec 4.2: the text up to the closing bracket that matches at depth
    zero, and the text after that bracket; [ParseError] without one. *)
Definition read_until_closing_bracket (s : string) : result (string * string) :=
  match scan_bracket 0 s with
  | Some r => OK r
  | None => Raise ParseError
  end.

Definition upper (c : ascii) : ascii :=
  if between 97 122 (code c) then ascii_of_nat (code c - 32) else c.

Fixpoint camel (start : bool) (s : string) : string :=
  match s with
  | EmptyString => ""
  | String c s' =>
      if Ascii.eqb c "_" then camel true s'
      else String (if start then upper c else c) (camel false s')
  end.

(** Modelled from the spec: [helpers.snake_to_camel_case] (absent).  Spec
    8: [max_value] becomes [MaxValue]; the first letter of every part
    between underscores is put in upper case and the underscores go. *)
Definition snake_to_camel_case (s : string) : string := camel true s.

(** The text before the first line feed and the text after it. *)
Fixpoint cut_line (s : string) : option (string * string) :=
  match s with
  | EmptyString => None
  | String c s' =>
      if Ascii.eqb c LF then Some ("", s')
      else match cut_line s' with
           | Some (l, r) => Some (String c l, r)
           | None => None
           end
  end.

(** The leading comment lines of [s]: a line is a comment line when a
    double slash follows its indentation, and its payload is what follows
    the slashes.  The fuel bounds the number of lines. *)
Fixpoint comment_lines (fuel : nat) (s : string) : list string * string :=
  match fuel with
  | O => ([], s)
  | S fuel' =>
      match cut_line s with
      | Some (l, r) =>
          if startswith (lstrip l) "//"
          then let (ls, r') := comment_lines fuel' r in
               (drop 2 (lstrip l) :: ls, r')
          else ([], s)
      | None => ([], s)
      end
  end.

(** Modelled from the spec: [models.Documented.consume] (absent).  Spec
    4.1: strip the leading documentation-comment lines and return their
    payloads, or the absent marker when there are none, with the rest. *)
Definition Documented_consume (s : string) : option (list string) * string :=
  match comment_lines (String.length s) s with
  | ([], r) => (None, r)
  | (ls, r) => (Some ls, r)
  end.

(** Modelled from the spec: [models.Documented.rust_documentation]
    (absent).  Spec 4.6: the documentation lines in the target comment
    syntax; nothing when there is no documentation. *)
Definition rust_documentation (doc : option (list string)) : string :=
  match doc with
  | None => ""
  | Some ls => String.concat nl (map (fun l => "///" ++ l) ls)
  end.

#[export] Instance helpers : Helpers :=
  Build_Helpers add_indent consume_empty_lines read_until_closing_bracket
    snake_to_camel_case Documented_consume rust_documentation.

End SpecModel.

(* ------------------------------------------------------------------ *)
(** ** Vocabulary of the properties *)

(** A string of decimal digits, [0] to [9], and nothing else. *)
Definition consists_of_digits (s : string) : bool := all_chars isdecimal_char s.

(** A comma stands right before the first line feed of [s]: the first line
    of [s] is terminated and ends with a comma. *)
Fixpoint comma_ends_first_line (s : string) : bool :=
  match s with
  | EmptyString => false
  | String c s' =>
      if Ascii.eqb c LF then false
      else match s' with
           | EmptyString => false
           | String c' _ =>
               if Ascii.eqb c' LF then Ascii.eqb c COMMA
               else comma_ends_first_line s'
           end
  end.

(** The text a token may match. *)
Fixpoint token_ok (t : token) (m : string) : Prop :=
  match t with
  | Lit l => m = l
  | Star cs => all_chars (in_charset cs) m = true
  | Plus cs | LazyPlus cs =>
      nonempty m = true /\ all_chars (in_charset cs) m = true
  | Group _ t' => token_ok t' m
  end.

Definition join_all (ms : list string) : string := fold_right append "" ms.

Fixpoint groups_of (p : pattern) (ms : list string) : match_object :=
  match p, ms with
  | t :: p', m :: ms' => (captured t m ++ groups_of p' ms')%list
  | _, _ => []
  end.

(** [parses_in_order body vs]: [body] is cut into consecutive non-empty
    pieces, one per variant of [vs] and in the order of [vs], and
    [Variant.consume] at the start of each piece yields that variant and
    stops where the next piece starts. *)
Inductive parses_in_order {H : Helpers} : string -> list Variant.t -> Prop :=
| parsed_all : parses_in_order "" []
| parsed_next (piece rest : string) (v : Variant.t) (vs : list Variant.t) :
    nonempty piece = true ->
    Variant.consume (piece ++ rest) = OK (v, rest) ->
    parses_in_order rest vs ->
    parses_in_order (piece ++ rest) (v :: vs).

(** The wrapper [to_rust] puts around the rendered variants. *)
Definition emitted {H : Helpers} (macro ident : string) (vs : list string) : string :=
  macro ++ " {" ++ nl
    ++ add_indent ("pub enum " ++ ident ++ " {" ++ nl
                     ++ add_indent (String.concat nl vs) ++ nl ++ "}")
    ++ nl ++ "}".

(* ------------------------------------------------------------------ *)
(** ** Sample inputs *)

Definition quoted (s : string) : string := String DQUOTE (s ++ String DQUOTE "").

(** Two comment lines, then an enum of two string variants, with text
    after it. *)
Definition color_source : string :=
  "// The colours." ++ nl ++ "// Two of them." ++ nl ++
  "export enum Color {" ++ nl ++
  "  Red = " ++ quoted "red" ++ "," ++ nl ++
  "  // blue" ++ nl ++
  "  dark_blue = " ++ quoted "blue" ++ "," ++ nl ++
  "}" ++ nl ++ nl ++ "rest".

Definition red : Variant.t := Variant.Build None "Red" (quoted "red").
Definition dark_blue : Variant.t :=
  Variant.Build (Some [" blue"]) "dark_blue" (quoted "blue").
Definition low : Variant.t := Variant.Build None "Low" "0".
Definition high : Variant.t := Variant.Build None "High" "1".
Definition unknown : Variant.t := Variant.Build None "Unknown" "-1".

Definition color : JsEnum.t :=
  JsEnum.Build (Some [" The colours."; " Two of them."]) "Color" [red; dark_blue].

(** The value [U+00BD], the vulgar fraction one half. *)
Definition one_half : string := String "189" "".

(* ------------------------------------------------------------------ *)
(** ** Vocabulary of the further properties *)

(** The first character of [t], when there is one, is of the class. *)
Definition head_in (cs : charset) (t : string) : bool :=
  match t with
  | EmptyString => false
  | String c _ => in_charset cs c
  end.

(** What [\w+] can capture: a non-empty run of word characters. *)
Definition is_identifier (s : string) : bool :=
  nonempty s && all_chars (in_charset Word) s.

(** What [.+?] can capture: a non-empty text without a line feed. *)
Definition is_line_text (s : string) : bool :=
  nonempty s && all_chars (in_charset Dot) s.

Definition well_formed (v : Variant.t) : Prop :=
  is_identifier (Variant.ident v) = true /\ is_line_text (Variant.value v) = true.

(** [parses_upto body vs left]: [body] starts with consecutive non-empty
    pieces, one per variant of [vs] and in the order of [vs], each parsed by
    [Variant.consume] into that variant, and [left] is the text after the
    last of them. *)
Inductive parses_upto {H : Helpers} : string -> list Variant.t -> string -> Prop :=
| upto_here (left : string) : parses_upto left [] left
| upto_next (piece rest left : string) (v : Variant.t) (vs : list Variant.t) :
    nonempty piece = true ->
    Variant.consume (piece ++ rest) = OK (v, rest) ->
    parses_upto rest vs left ->
    parses_upto (piece ++ rest) (v :: vs) left.

(** Two exceptions of the same class. *)
Definition same_class (x y : exn) : Prop :=
  match x, y with
  | ParseError, ParseError
  | TypeError _, TypeError _
  | ValueError _, ValueError _
  | KeyError, KeyError
  | IndexError, IndexError => True
  | _, _ => False
  end.

(** The source line of a variant: indentation, identifier, [ = ], value,
    comma, line feed. *)
Definition variant_line (sp ident value : string) : string :=
  sp ++ ident ++ " = " ++ value ++ "," ++ nl.

(** The source line that opens an enum. *)
Definition enum_header (sp ident : string) : string :=
  sp ++ "export enum " ++ ident ++ " {" ++ nl.

(* ================================================================== *)
(** * Properties *)

(** ** Strings *)

Lemma append_nil_r (s : string) : s ++ "" = s.
Proof. induction s as [|c s IH]; simpl; [reflexivity | now rewrite IH]. Qed.

Lemma append_assoc (a b c : string) : (a ++ b) ++ c = a ++ b ++ c.
Proof. induction a as [|x a IH]; simpl; [reflexivity | now rewrite IH]. Qed.

Lemma length_append (a b : string) :
  String.length (a ++ b) = String.length a + String.length b.
Proof. induction a as [|x a IH]; simpl; [reflexivity | now rewrite IH]. Qed.

Lemma all_chars_app (p : ascii -> bool) (a b : string) :
  all_chars p (a ++ b) = all_chars p a && all_chars p b.
Proof.
  induction a as [|x a IH]; simpl; [reflexivity |].
  now rewrite IH, andb_assoc.
Qed.

Lemma all_chars_impl (p q : ascii -> bool) (s : string) :
  (forall c, p c = true -> q c = true) ->
  all_chars p s = true -> all_chars q s = true.
Proof.
  intros Hpq. induction s as [|c s IH]; simpl; [reflexivity |].
  intros [Hc Hs]%andb_prop. now rewrite (Hpq c Hc), IH.
Qed.

Lemma nonempty_length (s : string) : nonempty s = true -> 0 < String.length s.
Proof. destruct s; simpl; [discriminate | lia]. Qed.

Lemma startswith_app (l s : string) :
  startswith s l = true -> s = l ++ drop (String.length l) s.
Proof.
  revert s. induction l as [|c l IH]; intros [|d s] Hp; simpl in *;
    try reflexivity; try discriminate Hp.
  apply andb_prop in Hp as [->%Ascii.eqb_eq Hp].
  now rewrite <- (IH s Hp).
Qed.

(** ** The value classifier *)

Lemma numeric_not_quote (c : ascii) :
  isnumeric_char c = true -> Ascii.eqb c DQUOTE = false.
Proof.
  intros Hn. destruct (Ascii.eqb_spec c DQUOTE) as [->|]; [| reflexivity].
  discriminate Hn.
Qed.

Lemma isnumeric_not_quoted (s : string) :
  isnumeric s = true -> startswith s (String DQUOTE "") = false.
Proof.
  destruct s as [|c s]; [discriminate |].
  cbn [isnumeric all_chars startswith].
  intros [Hc _]%andb_prop.
  now rewrite Ascii.eqb_sym, (numeric_not_quote c Hc).
Qed.

Lemma classify_quoted (v : Variant.t) :
  startswith (Variant.value v) (String DQUOTE "") = true ->
  Variant.get_value_type v = OK str.
Proof. unfold Variant.get_value_type. now intros ->. Qed.

Lemma classify_numeric (v : Variant.t) :
  isnumeric (Variant.value v) = true -> Variant.get_value_type v = OK int.
Proof.
  intros Hn. unfold Variant.get_value_type.
  now rewrite (isnumeric_not_quoted _ Hn), Hn.
Qed.

(** C2, as the code has it.  [Variant.get_value_type] returns [str] exactly
    when the value starts with a double quote; it returns [int] exactly when
    [str.isnumeric] holds of the value, that is when the value has at least
    one character and every character is numeric; in every other case it
    raises [TypeError]. *)
Theorem get_value_type_classifies (v : Variant.t) :
  (Variant.get_value_type v = OK str
   <-> startswith (Variant.value v) (String DQUOTE "") = true)
  /\ (Variant.get_value_type v = OK int
      <-> isnumeric (Variant.value v) = true)
  /\ (Variant.get_value_type v = Raise (TypeError "can't infer value type for variant")
      <-> startswith (Variant.value v) (String DQUOTE "") = false
          /\ isnumeric (Variant.value v) = false).
Proof.
  pose proof (@isnumeric_not_quoted (Variant.value v)) as Hnq.
  unfold Variant.get_value_type.
  destruct (startswith (Variant.value v) (String DQUOTE "")) eqn:Hq;
    destruct (isnumeric (Variant.value v)) eqn:Hn;
    try (specialize (Hnq eq_refl); discriminate);
    repeat split; intros; try congruence; intuition congruence.
Qed.

(** C2, the claim as worded, fails on two values.  The value made of the
    one character U+00BD is classified [int], and that character is no
    digit, neither a decimal digit nor one by [str.isdigit]; and the empty
    value, in which every character is a digit, raises [TypeError]. *)
Lemma get_value_type_not_only_digits :
  (Variant.get_value_type (Variant.Build None "Half" one_half) = OK int
   /\ consists_of_digits one_half = false
   /\ all_chars isdigit_char one_half = false)
  /\ (Variant.get_value_type (Variant.Build None "Empty" "")
      = Raise (TypeError "can't infer value type for variant")
      /\ consists_of_digits "" = true).
Proof. repeat split. Qed.

(** C10.  A value that starts with a double quote is classified [str]
    whatever follows the quote, terminated or not, and the classifier does
    not raise on it. *)
Theorem quote_takes_precedence
  (doc : option (list string)) (ident rest : string) :
  Variant.get_value_type (Variant.Build doc ident (String DQUOTE rest)) = OK str.
Proof. reflexivity. Qed.

(** ** Type inference *)

Lemma py_type_eqb_refl (t : py_type) : py_type_eqb t t = true.
Proof. now destruct t. Qed.

Lemma py_type_eqb_neq (a b : py_type) : a <> b -> py_type_eqb a b = false.
Proof. destruct a, b; intros Hab; try reflexivity; now elim Hab. Qed.

(** [all] runs through the variants that have the candidate type. *)
Lemma all_same_skip (t : py_type) (same rest : list Variant.t) :
  Forall (fun x => Variant.get_value_type x = OK t) same ->
  JsEnum.all_same t (same ++ rest)%list = JsEnum.all_same t rest.
Proof.
  induction 1 as [|x same Hx _ IH]; simpl; [reflexivity |].
  now rewrite Hx, py_type_eqb_refl.
Qed.

Lemma all_same_true (t : py_type) (same : list Variant.t) :
  Forall (fun x => Variant.get_value_type x = OK t) same ->
  JsEnum.all_same t same = (OK true, []).
Proof.
  intros Hs. rewrite <- (List.app_nil_r same) at 1.
  now rewrite (all_same_skip [] Hs).
Qed.

(** [all] stops at the first variant of another type and leaves the
    variants after it in the generator. *)
Lemma all_same_stops (t t' : py_type) (v : Variant.t) (after : list Variant.t) :
  Variant.get_value_type v = OK t' -> t' <> t ->
  JsEnum.all_same t (v :: after) = (OK false, after).
Proof. intros Hv Hne. simpl. now rewrite Hv, (py_type_eqb_neq Hne). Qed.

(** C4.  An enum without variants has no inferred type: inference raises
    [ValueError], and so do the macro selection and the emission. *)
Theorem empty_enum_rejected {H : Helpers}
  (doc : option (list string)) (ident : string) :
  let e := JsEnum.Build doc ident [] in
  JsEnum.get_value_type e
    = Raise (ValueError "can't infer value type for empty enum")
  /\ JsEnum.macro e
     = Raise (ValueError "can't infer value type for empty enum")
  /\ JsEnum.to_rust e
     = Raise (ValueError "can't infer value type for empty enum").
Proof. repeat split. Qed.

(** C5.  Let the first variant classify with type [t] and the variants
    [same] after it too.  If they are all the variants, inference returns
    [t].  If a variant [v] of another type follows them, inference raises
    the [TypeError] of conflicting types at [v], and the variants after
    [v] are still in the generator: none of them was classified. *)
Theorem inference_stops_at_first_mismatch
  (doc : option (list string)) (ident : string)
  (first : Variant.t) (t : py_type) (same : list Variant.t) :
  Variant.get_value_type first = OK t ->
  Forall (fun x => Variant.get_value_type x = OK t) same ->
  JsEnum.get_value_type (JsEnum.Build doc ident (first :: same)) = OK t
  /\ forall (v : Variant.t) (t' : py_type) (after : list Variant.t),
      Variant.get_value_type v = OK t' -> t' <> t ->
      JsEnum.run_get_value_type
        (JsEnum.Build doc ident (first :: same ++ v :: after))
      = (Raise (TypeError "enum has multiple conflicting value types"), after).
Proof.
  intros Hfirst Hsame. split.
  - unfold JsEnum.get_value_type, JsEnum.run_get_value_type. simpl.
    now rewrite Hfirst, (all_same_true Hsame).
  - intros v t' after Hv Hne.
    unfold JsEnum.run_get_value_type. cbn [JsEnum.variants].
    now rewrite Hfirst, (all_same_skip _ Hsame), (@all_same_stops t t' v after Hv Hne).
Qed.

(** [Low = 0, High = 1] is an [int] enum; with [Red = "red"] after them
    inference raises at [Red] and never classifies [Unknown = -1], which
    follows it and has no type. *)
Lemma inference_stops_at_first_mismatch_witness :
  JsEnum.get_value_type (JsEnum.Build None "Level" [low; high]) = OK int
  /\ JsEnum.run_get_value_type
       (JsEnum.Build None "Level" [low; high; red; unknown])
     = (Raise (TypeError "enum has multiple conflicting value types"), [unknown])
  /\ Variant.get_value_type unknown
     = Raise (TypeError "can't infer value type for variant").
Proof.
  destruct (@inference_stops_at_first_mismatch None "Level" low int [high]
              eq_refl (Forall_cons high eq_refl (Forall_nil _))) as [Hall Hstop].
  split; [exact Hall |]. split; [| reflexivity].
  apply (Hstop red str [unknown] eq_refl). discriminate.
Defined.

(** ** Macro selection and emission *)

(** C3.  [_TYPE2MACRO] has two entries.  An enum inferred [int] gets the
    macro name [int_enum!] and is emitted inside its invocation; an enum
    inferred [str] gets [str_enum!]; when inference raises, macro selection
    and emission raise the same exception, so no other name is produced. *)
Theorem macro_follows_inferred_type {H : Helpers} (e : JsEnum.t) :
  length JsEnum._TYPE2MACRO = 2
  /\ match JsEnum.get_value_type e with
     | OK int =>
         JsEnum.macro e = OK "int_enum!"
         /\ JsEnum.to_rust e
            = OK (emitted "int_enum!" (JsEnum.ident e)
                    (map Variant.to_rust (JsEnum.variants e)))
     | OK str =>
         JsEnum.macro e = OK "str_enum!"
         /\ JsEnum.to_rust e
            = OK (emitted "str_enum!" (JsEnum.ident e)
                    (map Variant.to_rust (JsEnum.variants e)))
     | Raise x => JsEnum.macro e = Raise x /\ JsEnum.to_rust e = Raise x
     end.
Proof.
  split; [reflexivity |].
  unfold JsEnum.to_rust, JsEnum.macro.
  destruct (JsEnum.get_value_type e) as [[|]|x]; split; reflexivity.
Qed.

(** C7.  A variant is rendered as its documentation, when that renders to
    something, followed on the next line by the declaration line: the
    re-cased identifier, [ = ], the value as stored, and a comma. *)
Theorem variant_line_keeps_value {H : Helpers} (v : Variant.t) :
  let line :=
    snake_to_camel_case (Variant.ident v) ++ " = " ++ Variant.value v ++ "," in
  let doc := rust_documentation (Variant.documentation v) in
  Variant.to_rust v = if nonempty doc then doc ++ nl ++ line else line.
Proof.
  cbv zeta. unfold Variant.to_rust, Variant.declaration_line, join_nonempty_lines.
  cbn [filter].
  assert (Hline : nonempty (snake_to_camel_case (Variant.ident v) ++ " = "
                              ++ Variant.value v ++ ",") = true)
    by now destruct (snake_to_camel_case (Variant.ident v)).
  rewrite Hline.
  now destruct (nonempty (rust_documentation (Variant.documentation v))).
Qed.

(** C1, on the code.  The enum emitter never reads the [documentation]
    field: the enum [Color], whose documentation is two comment lines, is
    emitted as text that starts with the macro invocation, and any enum is
    emitted as the same enum without documentation is. *)
Theorem enum_documentation_not_emitted :
  JsEnum.to_rust (H := SpecModel.helpers) color
  = OK ("str_enum! {" ++ nl
        ++ "    pub enum Color {" ++ nl
        ++ "        Red = " ++ quoted "red" ++ "," ++ nl
        ++ "        /// blue" ++ nl
        ++ "        DarkBlue = " ++ quoted "blue" ++ "," ++ nl
        ++ "    }" ++ nl
        ++ "}")
  /\ forall (H : Helpers) (doc : option (list string)) (ident : string)
            (variants : list Variant.t),
      JsEnum.to_rust (JsEnum.Build doc ident variants)
      = JsEnum.to_rust (JsEnum.Build None ident variants).
Proof. split; reflexivity. Qed.

(** ** The pattern matcher *)

Lemma first_some_In {A B} (f : A -> option B) (l : list A) (b : B) :
  first_some f l = Some b -> exists a, In a l /\ f a = Some b.
Proof.
  induction l as [|a l IH]; simpl; [discriminate |].
  destruct (f a) as [b'|] eqn:Hfa.
  - intros [= <-]. exists a. auto.
  - intros Hl. destruct (IH Hl) as (a' & Hin & Ha'). exists a'. auto.
Qed.

Lemma lazy_splits_In (cs : charset) (s m r : string) :
  In (m, r) (lazy_splits cs s) ->
  s = m ++ r /\ nonempty m = true /\ all_chars (in_charset cs) m = true.
Proof.
  revert m r. induction s as [|c s IH]; intros m r; simpl; [contradiction |].
  destruct (in_charset cs c) eqn:Hc; [| contradiction].
  intros [[= <- <-] | Hin].
  - simpl. now rewrite Hc.
  - apply in_map_iff in Hin as ([m' r'] & [= <- <-] & Hin).
    destruct (IH _ _ Hin) as (-> & _ & Hall). simpl. now rewrite Hc, Hall.
Qed.

Lemma candidates_In (t : token) (s m r : string) :
  In (m, r) (candidates t s) -> s = m ++ r /\ token_ok t m.
Proof.
  induction t as [l | cs | cs | cs | name t IH]; simpl.
  - destruct (startswith s l) eqn:Hl; [| contradiction].
    intros [[= <- <-] | []]. split; [now apply startswith_app | reflexivity].
  - intros [Hin%in_rev%lazy_splits_In | [[= <- <-] | []]]%in_app_or.
    + tauto.
    + now split.
  - intros Hin%in_rev%lazy_splits_In. tauto.
  - intros Hin%lazy_splits_In. tauto.
  - exact IH.
Qed.

(** A match cuts the text into one piece per token, each piece a text the
    token may match, followed by the remaining text. *)
Lemma re_match_sound (p : pattern) (s : string) (g : match_object) (rest : string) :
  re_match p s = Some (g, rest) ->
  exists ms, Forall2 token_ok p ms /\ s = join_all ms ++ rest /\ g = groups_of p ms.
Proof.
  revert s g rest. induction p as [|t p IH]; intros s g rest; simpl.
  - intros [= <- <-]. exists []. now repeat split.
  - intros ([m r] & Hin & Hf)%first_some_In. simpl in Hf.
    destruct (re_match p r) as [[g' rest']|] eqn:Hp; [| discriminate].
    injection Hf as <- <-.
    destruct (candidates_In _ _ _ _ Hin) as (-> & Hm).
    destruct (IH _ _ _ Hp) as (ms & Hms & -> & ->).
    exists (m :: ms). repeat split.
    + now constructor.
    + simpl. now rewrite append_assoc.
Qed.

Ltac invert_pieces :=
  repeat match goal with
    | H : Forall2 token_ok (_ :: _) _ |- _ => inversion H; subst; clear H
    | H : Forall2 token_ok [] _ |- _ => inversion H; subst; clear H
    end.

Lemma variant_pattern_sound (s : string) (g : match_object) (rest : string) :
  re_match _PATTERN_VARIANT s = Some (g, rest) ->
  exists sp id val,
    s = sp ++ id ++ " = " ++ val ++ "," ++ nl ++ rest
    /\ g = [("ident", id); ("value", val)]
    /\ all_chars (in_charset Space) sp = true
    /\ (nonempty id = true /\ all_chars (in_charset Word) id = true)
    /\ (nonempty val = true /\ all_chars (in_charset Dot) val = true).
Proof.
  intros (ms & Hms & -> & ->)%re_match_sound.
  unfold _PATTERN_VARIANT in *. invert_pieces. simpl in *. subst.
  match goal with
  | |- exists _ _ _, (?a ++ ?b ++ _) ++ _ = _ /\ _ => exists a, b
  end.
  match goal with
  | H : nonempty ?v = true /\ all_chars (in_charset Dot) ?v = true |- _ => exists v
  end.
  repeat split; try tauto.
  rewrite !append_assoc. simpl. rewrite ?append_assoc. reflexivity.
Qed.

Lemma enum_pattern_sound (s : string) (g : match_object) (rest : string) :
  re_match _PATTERN_ENUM_OPEN s = Some (g, rest) ->
  exists sp id,
    s = sp ++ "export enum " ++ id ++ " {" ++ nl ++ rest
    /\ g = [("ident", id)]
    /\ all_chars (in_charset Space) sp = true
    /\ (nonempty id = true /\ all_chars (in_charset Word) id = true).
Proof.
  intros (ms & Hms & -> & ->)%re_match_sound.
  unfold _PATTERN_ENUM_OPEN in *. invert_pieces. simpl in *. subst.
  match goal with
  | H : nonempty ?v = true /\ all_chars (in_charset Word) ?v = true
    |- exists _ _, (?a ++ _) ++ _ = _ /\ _ => exists a, v
  end.
  repeat split; try tauto.
  rewrite !append_assoc. simpl. rewrite ?append_assoc. reflexivity.
Qed.

(** ** Rejection of malformed declarations *)

(** No character of the three classes is a line feed. *)
Lemma charset_not_LF (cs : charset) (c : ascii) :
  in_charset cs c = true -> in_charset Dot c = true.
Proof.
  intros Hc. simpl. destruct (Ascii.eqb_spec c LF) as [->|]; [| reflexivity].
  now destruct cs.
Qed.

Lemma comma_ends_first_line_app (m rest : string) :
  all_chars (in_charset Dot) m = true ->
  comma_ends_first_line (m ++ "," ++ nl ++ rest) = true.
Proof.
  induction m as [|c m IH]; [reflexivity |].
  cbn [all_chars]. intros [Hc Hm]%andb_prop. specialize (IH Hm).
  simpl in Hc. apply negb_true_iff in Hc.
  cbn [append comma_ends_first_line]. rewrite Hc.
  destruct m as [|c' m]; [reflexivity |].
  cbn [all_chars] in Hm. apply andb_prop in Hm as [Hc' _].
  simpl in Hc'. apply negb_true_iff in Hc'.
  cbn [append] in *. now rewrite Hc'.
Qed.

Lemma lstrip_spaces (sp t : string) :
  all_chars (in_charset Space) sp = true -> lstrip (sp ++ t) = lstrip t.
Proof.
  induction sp as [|c sp IH]; [reflexivity |].
  cbn [all_chars]. intros [Hc Hsp]%andb_prop. simpl in *.
  now rewrite Hc, IH.
Qed.

(** The text a variant line matches ends its first line with a comma. *)
Lemma variant_match_comma (s : string) (g : match_object) (rest : string) :
  re_match _PATTERN_VARIANT s = Some (g, rest) ->
  comma_ends_first_line s = true.
Proof.
  intros (sp & id & val & -> & _ & Hsp & [_ Hid] & [_ Hval])%variant_pattern_sound.
  replace (sp ++ id ++ " = " ++ val ++ "," ++ nl ++ rest)
    with ((sp ++ id ++ " = " ++ val) ++ "," ++ nl ++ rest)
    by (now rewrite !append_assoc).
  apply comma_ends_first_line_app.
  rewrite !all_chars_app.
  rewrite (@all_chars_impl _ _ _ (@charset_not_LF Space) Hsp).
  rewrite (@all_chars_impl _ _ _ (@charset_not_LF Word) Hid).
  now rewrite Hval.
Qed.

(** The text an enum header matches has [export] after its indentation. *)
Lemma enum_match_export (s : string) (g : match_object) (rest : string) :
  re_match _PATTERN_ENUM_OPEN s = Some (g, rest) ->
  startswith (lstrip s) "export" = true.
Proof.
  intros (sp & id & -> & _ & Hsp & _)%enum_pattern_sound.
  now rewrite (@lstrip_spaces sp _ Hsp).
Qed.

(** C8.  Take the text that follows the documentation.  If its first line
    does not end with a comma, [Variant.consume] raises [ParseError]; if
    [export] does not follow its indentation, [JsEnum.consume] raises
    [ParseError].  A raised outcome holds no variant, no enum and no
    remaining text: the caller is left with the text it passed. *)
Theorem malformed_declaration_rejected {H : Helpers} (s : string) :
  (comma_ends_first_line (snd (Documented_consume s)) = false ->
   Variant.consume s = Raise ParseError)
  /\ (startswith (lstrip (snd (Documented_consume s))) "export" = false ->
      JsEnum.consume s = Some (Raise ParseError)).
Proof.
  unfold Variant.consume, JsEnum.consume, consume_match.
  destruct (Documented_consume s) as [doc s1]. cbn [snd]. split; intros Hbad.
  - destruct (re_match _PATTERN_VARIANT s1) as [[g rest]|] eqn:Hm;
      [| reflexivity].
    apply variant_match_comma in Hm. congruence.
  - destruct (re_match _PATTERN_ENUM_OPEN s1) as [[g rest]|] eqn:Hm;
      [| reflexivity].
    apply enum_match_export in Hm. congruence.
Qed.

(** A body line without its comma, and a header without [export]. *)
Lemma malformed_declaration_rejected_witness :
  Variant.consume (H := SpecModel.helpers)
    ("  Red = " ++ quoted "red" ++ nl ++ "  Blue = " ++ quoted "blue" ++ "," ++ nl)
  = Raise ParseError
  /\ JsEnum.consume (H := SpecModel.helpers)
       ("enum Color {" ++ nl ++ "  Red = " ++ quoted "red" ++ "," ++ nl ++ "}" ++ nl)
     = Some (Raise ParseError).
Proof.
  split.
  - apply (proj1 (@malformed_declaration_rejected SpecModel.helpers _)).
    reflexivity.
  - apply (proj2 (@malformed_declaration_rejected SpecModel.helpers _)).
    reflexivity.
Defined.

(** ** Parsing in order *)

Lemma nonempty_of_length (s : string) : 0 < String.length s -> nonempty s = true.
Proof. destruct s; simpl; [lia | reflexivity]. Qed.

Lemma suffix_of_length (r s : string) :
  suffix_of r s -> String.length r <= String.length s.
Proof. intros [p ->]. rewrite length_append. lia. Qed.

(** What a successful [Variant.consume] has read: after the documentation,
    the indentation, the identifier, [ = ], the value, a comma and a line
    feed; the variant holds the identifier and the value as they stand in
    the text. *)
Lemma Variant_consume_inv {H : Helpers} (s r : string) (v : Variant.t) :
  Variant.consume s = OK (v, r) ->
  exists sp rest,
    snd (Documented_consume s)
    = sp ++ Variant.ident v ++ " = " ++ Variant.value v ++ "," ++ nl ++ rest
    /\ r = consume_empty_lines rest
    /\ Variant.documentation v = fst (Documented_consume s)
    /\ all_chars (in_charset Space) sp = true
    /\ (nonempty (Variant.ident v) = true
        /\ all_chars (in_charset Word) (Variant.ident v) = true)
    /\ (nonempty (Variant.value v) = true
        /\ all_chars (in_charset Dot) (Variant.value v) = true).
Proof.
  unfold Variant.consume, consume_match.
  destruct (Documented_consume s) as [doc s1]. cbn [fst snd].
  destruct (re_match _PATTERN_VARIANT s1) as [[g rest]|] eqn:Hm;
    [| discriminate].
  apply variant_pattern_sound in Hm
    as (sp & id & val & -> & -> & Hsp & Hid & Hval).
  cbn. intros [= <- <-]. exists sp, rest. now repeat split.
Qed.

Section Parsing.
Context {H : Helpers} {L : HelperLaws H}.

(** [Variant.consume] removes a non-empty piece from the start of the
    text. *)
Lemma Variant_consume_piece (s r : string) (v : Variant.t) :
  Variant.consume s = OK (v, r) ->
  exists piece, nonempty piece = true /\ s = piece ++ r.
Proof.
  intros (sp & rest & Hs1 & -> & _)%Variant_consume_inv.
  destruct (Documented_consume_suffix s) as [p0 Hs].
  destruct (consume_empty_lines_suffix rest) as [p2 Hrest].
  exists (p0 ++ (sp ++ Variant.ident v ++ " = " ++ Variant.value v ++ "," ++ nl)
            ++ p2).
  split.
  - apply nonempty_of_length. rewrite !length_append. simpl. lia.
  - rewrite Hs at 1. rewrite Hs1. rewrite Hrest at 1.
    now rewrite !append_assoc.
Qed.

Lemma Variant_consume_shorter (s r : string) (v : Variant.t) :
  Variant.consume s = OK (v, r) -> String.length r < String.length s.
Proof.
  intros (piece & Hne%nonempty_length & ->)%Variant_consume_piece.
  rewrite length_append. lia.
Qed.

(** The loop ends within its fuel. *)
Lemma consume_body_total (fuel : nat) (body : string) (acc : list Variant.t) :
  String.length body <= fuel -> JsEnum.consume_body fuel body acc <> None.
Proof.
  revert body acc. induction fuel as [|fuel IH]; intros body acc Hlen.
  - destruct body; simpl in *; [discriminate | lia].
  - cbn [JsEnum.consume_body]. destruct (nonempty body); [| discriminate].
    destruct (Variant.consume body) as [[v body']|e] eqn:Hv; [| discriminate].
    apply IH. apply Variant_consume_shorter in Hv. lia.
Qed.

(** The loop appends, in order, the variants of the consecutive pieces
    of the body. *)
Lemma consume_body_in_order (fuel : nat) (body : string)
  (acc vs : list Variant.t) :
  JsEnum.consume_body fuel body acc = Some (OK vs) ->
  exists new, vs = (acc ++ new)%list /\ parses_in_order body new.
Proof.
  revert body acc. induction fuel as [|fuel IH]; intros body acc.
  - destruct body; simpl; [| discriminate].
    intros [= <-]. exists []. split; [now rewrite List.app_nil_r | constructor].
  - cbn [JsEnum.consume_body]. destruct (nonempty body) eqn:Hne.
    + destruct (Variant.consume body) as [[v body']|e] eqn:Hv; [| discriminate].
      intros (new & -> & Hnew)%IH.
      destruct (Variant_consume_piece _ Hv) as (piece & Hpiece & ->).
      exists (v :: new). split; [now rewrite <- List.app_assoc |].
      now constructor.
    + destruct body; [| discriminate].
      intros [= <-]. exists []. split; [now rewrite List.app_nil_r | constructor].
Qed.

(** [JsEnum.consume] always comes to an outcome. *)
Lemma JsEnum_consume_total (s : string) : JsEnum.consume s <> None.
Proof.
  unfold JsEnum.consume. destruct (Documented_consume s) as [doc s1].
  destruct (consume_match _PATTERN_ENUM_OPEN s1) as [[m s2]|]; [| discriminate].
  destruct (group m "ident"); [| discriminate].
  destruct (read_until_closing_bracket _) as [[body s3]|]; [| discriminate].
  pose proof (@consume_body_total (String.length body) body [] (le_n _)) as Ht.
  destruct (JsEnum.consume_body _ body []) as [[vs|e]|];
    [discriminate | discriminate | now elim Ht].
Qed.

(** C6.  When [JsEnum.consume] accepts a text, the body it read between
    the brackets is a sequence of consecutive pieces, and the variants of
    the enum are, in the same order, the variants parsed from these
    pieces; and when the enum is emitted, the text is the wrapper around
    the renderings of these variants, joined in that order. *)
Theorem variants_keep_source_order (s rest : string) (e : JsEnum.t) :
  JsEnum.consume s = Some (OK (e, rest)) ->
  (exists opened body after,
      suffix_of opened s
      /\ read_until_closing_bracket opened = OK (body, after)
      /\ rest = consume_empty_lines after
      /\ parses_in_order body (JsEnum.variants e))
  /\ forall out, JsEnum.to_rust e = OK out ->
       exists macro,
         JsEnum.macro e = OK macro
         /\ out = emitted macro (JsEnum.ident e)
                    (map Variant.to_rust (JsEnum.variants e)).
Proof.
  intros Hc. split.
  - unfold JsEnum.consume, consume_match in Hc.
    pose proof (Documented_consume_suffix s) as [p0 Hs].
    destruct (Documented_consume s) as [doc s1]. cbn [snd] in Hs.
    destruct (re_match _PATTERN_ENUM_OPEN s1) as [[m s2]|] eqn:Hm;
      [| discriminate].
    apply enum_pattern_sound in Hm as (sp & id & -> & -> & _).
    change (group [("ident", id)] "ident") with (OK id) in Hc.
    destruct (consume_empty_lines_suffix s2) as [p2 Hs2].
    destruct (read_until_closing_bracket (consume_empty_lines s2))
      as [[body after]|] eqn:Hr; [| discriminate].
    destruct (JsEnum.consume_body _ body []) as [[vs|x]|] eqn:Hb;
      try discriminate.
    injection Hc as <- <-.
    apply consume_body_in_order in Hb as (new & -> & Hnew).
    exists (consume_empty_lines s2), body, after. repeat split; trivial.
    exists (p0 ++ (sp ++ "export enum " ++ id ++ " {" ++ nl) ++ p2).
    rewrite Hs. rewrite Hs2 at 1. now rewrite !append_assoc.
  - unfold JsEnum.to_rust. intros out.
    destruct (JsEnum.macro e) as [macro|x]; [| discriminate].
    intros [= <-]. now exists macro.
Qed.

End Parsing.


(** ** The reference helpers keep the laws *)

Lemma suffix_of_refl (s : string) : suffix_of s s.
Proof. now exists "". Qed.

Lemma suffix_of_trans (a b c : string) :
  suffix_of a b -> suffix_of b c -> suffix_of a c.
Proof.
  intros [p ->] [q ->]. exists (q ++ p). now rewrite append_assoc.
Qed.

Lemma model_consume_empty_lines_suffix (s : string) :
  suffix_of (SpecModel.consume_empty_lines s) s.
Proof.
  induction s as [|c s IH]; simpl; [apply suffix_of_refl |].
  destruct (Ascii.eqb c LF); [| apply suffix_of_refl].
  apply (suffix_of_trans IH). now exists (String c "").
Qed.

Lemma cut_line_app (s l r : string) :
  SpecModel.cut_line s = Some (l, r) -> s = l ++ nl ++ r.
Proof.
  revert l. induction s as [|c s IH]; intros l; simpl; [discriminate |].
  destruct (Ascii.eqb_spec c LF) as [->|_].
  - now intros [= <- <-].
  - destruct (SpecModel.cut_line s) as [[l' r']|]; [| discriminate].
    intros [= <- <-]. simpl. now rewrite (IH l' eq_refl).
Qed.

Lemma comment_lines_suffix (fuel : nat) (s : string) :
  suffix_of (snd (SpecModel.comment_lines fuel s)) s.
Proof.
  revert s. induction fuel as [|fuel IH]; intros s;
    cbn [SpecModel.comment_lines]; [apply suffix_of_refl |].
  destruct (SpecModel.cut_line s) as [[l r]|] eqn:Hcut; [| apply suffix_of_refl].
  destruct (startswith (lstrip l) "//"); [| apply suffix_of_refl].
  specialize (IH r). destruct (SpecModel.comment_lines fuel r) as [ls r'].
  cbn [snd] in *.
  apply (suffix_of_trans IH). exists (l ++ nl).
  rewrite append_assoc. now apply cut_line_app.
Qed.

Lemma model_laws : HelperLaws SpecModel.helpers.
Proof.
  split; cbn.
  - intros s. unfold SpecModel.Documented_consume.
    pose proof (comment_lines_suffix (String.length s) s) as Hs.
    now destruct (SpecModel.comment_lines (String.length s) s) as [[|l ls] r].
  - exact model_consume_empty_lines_suffix.
Qed.

(** The enum [Color] read from its source text: the body is cut at the
    start of the documented second variant. *)
Lemma variants_keep_source_order_witness :
  (exists opened body after,
      suffix_of opened color_source
      /\ SpecModel.read_until_closing_bracket opened = OK (body, after)
      /\ "rest" = SpecModel.consume_empty_lines after
      /\ parses_in_order (H := SpecModel.helpers) body [red; dark_blue])
  /\ forall out, JsEnum.to_rust (H := SpecModel.helpers) color = OK out ->
       exists macro,
         JsEnum.macro color = OK macro
         /\ out = emitted (H := SpecModel.helpers) macro "Color"
                    (map (Variant.to_rust (H := SpecModel.helpers))
                       [red; dark_blue]).
Proof.
  apply (@variants_keep_source_order SpecModel.helpers model_laws
           color_source "rest" color).
  reflexivity.
Defined.

(** ** Further properties of the parser *)

(** X1.  A variant that [Variant.consume] returns holds the identifier and
    the value exactly as they stand in the text after the documentation,
    between the indentation and the comma that ends the line, and the
    documentation that was extracted; the text returned is what follows the
    line, after the empty lines are skipped. *)
Theorem variant_fields_verbatim {H : Helpers} (s r : string) (v : Variant.t) :
  Variant.consume s = OK (v, r) ->
  exists sp rest,
    snd (Documented_consume s)
    = sp ++ Variant.ident v ++ " = " ++ Variant.value v ++ "," ++ nl ++ rest
    /\ all_chars (in_charset Space) sp = true
    /\ r = consume_empty_lines rest
    /\ Variant.documentation v = fst (Documented_consume s).
Proof.
  intros (sp & rest & Hs & Hr & Hdoc & Hsp & _)%Variant_consume_inv.
  now exists sp, rest.
Qed.

Lemma variant_fields_verbatim_witness :
  exists sp rest,
    snd (SpecModel.Documented_consume
           ("  // blue" ++ nl ++ "  dark_blue = " ++ quoted "blue" ++ "," ++ nl
              ++ nl ++ "}"))
    = sp ++ "dark_blue" ++ " = " ++ quoted "blue" ++ "," ++ nl ++ rest
    /\ all_chars (in_charset Space) sp = true
    /\ "}" = SpecModel.consume_empty_lines rest
    /\ Some [" blue"]
       = fst (SpecModel.Documented_consume
                ("  // blue" ++ nl ++ "  dark_blue = " ++ quoted "blue" ++ ","
                   ++ nl ++ nl ++ "}")).
Proof.
  apply (@variant_fields_verbatim SpecModel.helpers
           ("  // blue" ++ nl ++ "  dark_blue = " ++ quoted "blue" ++ "," ++ nl
              ++ nl ++ "}")
           "}" dark_blue).
  reflexivity.
Defined.

(** X2.  With helpers that only remove text at the current position, the
    loop over the body ends: [JsEnum.consume] returns an enum or raises, on
    every text. *)
Theorem enum_consume_terminates {H : Helpers} (L : HelperLaws H) (s : string) :
  exists outcome, JsEnum.consume s = Some outcome.
Proof.
  pose proof (JsEnum_consume_total (L := L) s) as Ht.
  destruct (JsEnum.consume s) as [outcome|]; [now exists outcome | now elim Ht].
Qed.

Lemma enum_consume_terminates_witness :
  exists outcome,
    JsEnum.consume (H := SpecModel.helpers) color_source = Some outcome.
Proof. apply (enum_consume_terminates model_laws). Defined.

(* ================================================================== *)
(** * Further properties *)

(** ** The matcher on well-formed lines *)

Lemma first_some_head {A B} (f : A -> option B) (a : A) (l : list A) (b : B) :
  f a = Some b -> first_some f (a :: l) = Some b.
Proof. intros Hfa. simpl. now rewrite Hfa. Qed.

Lemma first_some_map {A B C} (f : B -> option C) (g : A -> B) (l : list A) :
  first_some f (map g l) = first_some (fun a => f (g a)) l.
Proof.
  induction l as [|a l IH]; simpl; [reflexivity |].
  now rewrite IH.
Qed.

Lemma lazy_splits_nil (cs : charset) (t : string) :
  head_in cs t = false -> lazy_splits cs t = [].
Proof. destruct t as [|c t]; simpl; [reflexivity |]. now intros ->. Qed.

(** The longest candidate of a class is the whole run of its characters. *)
Lemma lazy_splits_last (cs : charset) (m t : string) :
  nonempty m = true -> all_chars (in_charset cs) m = true ->
  head_in cs t = false ->
  exists l, lazy_splits cs (m ++ t) = (l ++ [(m, t)])%list.
Proof.
  intros Hne Hall Ht. induction m as [|c m IH]; [discriminate |].
  cbn [all_chars] in Hall. apply andb_prop in Hall as [Hc Hm].
  cbn [append lazy_splits]. rewrite Hc.
  destruct m as [|c' m].
  - cbn [append]. rewrite (lazy_splits_nil _ _ Ht). now exists [].
  - destruct (IH eq_refl Hm) as [l ->].
    exists ((String c "", String c' m ++ t)
              :: map (fun mr => (String c (fst mr), snd mr)) l).
    now rewrite map_app.
Qed.

Lemma candidates_plus_head (cs : charset) (m t : string) :
  nonempty m = true -> all_chars (in_charset cs) m = true ->
  head_in cs t = false ->
  exists l, candidates (Plus cs) (m ++ t) = (m, t) :: l.
Proof.
  intros Hne Hall Ht. destruct (lazy_splits_last cs m t Hne Hall Ht) as [l Hl].
  exists (rev l). cbn [candidates]. now rewrite Hl, rev_app_distr.
Qed.

Lemma candidates_star_head (cs : charset) (m t : string) :
  all_chars (in_charset cs) m = true -> head_in cs t = false ->
  exists l, candidates (Star cs) (m ++ t) = (m, t) :: l.
Proof.
  intros Hall Ht. destruct m as [|c m].
  - exists []. cbn [candidates append]. now rewrite (lazy_splits_nil _ _ Ht).
  - destruct (lazy_splits_last cs (String c m) t eq_refl Hall Ht) as [l Hl].
    exists (rev l ++ [("", (String c m ++ t)%string)])%list.
    cbn [candidates]. now rewrite Hl, rev_app_distr.
Qed.

(** Inside a one-line text, the comma and line feed that end the line are
    not found earlier. *)
Lemma no_early_line_end (val rest : string) :
  is_line_text val = true ->
  startswith (val ++ "," ++ nl ++ rest) ("," ++ nl) = false.
Proof.
  unfold is_line_text. intros [Hne Hall]%andb_prop.
  destruct val as [|c val]; [discriminate |].
  cbn [all_chars] in Hall. apply andb_prop in Hall as [_ Hall].
  cbn [append startswith nl].
  destruct (Ascii.eqb "," c); [| reflexivity].
  destruct val as [|c' val]; [reflexivity |].
  cbn [all_chars] in Hall. apply andb_prop in Hall as [Hc' _].
  simpl in Hc'. apply negb_true_iff in Hc'.
  cbn [append andb]. now rewrite Ascii.eqb_sym, Hc'.
Qed.

(** The lazy class stops at the first place where the rest of the pattern
    matches: with a continuation that needs the comma and line feed, at the
    end of the one-line text. *)
Lemma lazy_value_first {B} (f : string * string -> option B)
  (val rest : string) (b : B) :
  (forall m r, startswith r ("," ++ nl) = false -> f (m, r) = None) ->
  is_line_text val = true ->
  f (val, "," ++ nl ++ rest) = Some b ->
  first_some f (lazy_splits Dot (val ++ "," ++ nl ++ rest)) = Some b.
Proof.
  revert f. induction val as [|c val IH]; intros f Hf Hval Hb; [discriminate |].
  unfold is_line_text in Hval. apply andb_prop in Hval as [_ Hall].
  cbn [all_chars] in Hall. apply andb_prop in Hall as [Hc Hall].
  cbn [append lazy_splits]. rewrite Hc.
  destruct val as [|c' val].
  - now apply first_some_head.
  - assert (Hval' : is_line_text (String c' val) = true)
      by (unfold is_line_text; now rewrite Hall).
    cbn [first_some]. rewrite (Hf _ _ (@no_early_line_end _ rest Hval')).
    rewrite first_some_map. apply IH; trivial.
    intros m r Hr. now apply Hf.
Qed.

Lemma word_not_space (c : ascii) : isword_char c = true -> Ascii.eqb c SP = false.
Proof.
  intros Hw. destruct (Ascii.eqb_spec c SP) as [->|]; [| reflexivity].
  discriminate Hw.
Qed.

Lemma identifier_head (id t : string) :
  is_identifier id = true -> head_in Space (id ++ t) = false.
Proof.
  unfold is_identifier. intros [Hne Hall]%andb_prop.
  destruct id as [|c id]; [discriminate |].
  cbn [all_chars] in Hall. apply andb_prop in Hall as [Hc _].
  cbn [append head_in in_charset]. now apply word_not_space.
Qed.

Lemma re_match_cons (t : token) (p : pattern) (s : string) :
  re_match (t :: p) s
  = first_some
      (fun mr =>
         match re_match p (snd mr) with
         | Some (g, rest) => Some ((captured t (fst mr) ++ g)%list, rest)
         | None => None
         end)
      (candidates t s).
Proof. reflexivity. Qed.

Lemma candidates_lit (l t : string) : candidates (Lit l) (l ++ t) = [(l, t)].
Proof.
  cbn [candidates].
  assert (Hs : startswith (l ++ t) l = true)
    by (induction l as [|c l IH]; cbn [append startswith];
        [reflexivity | now rewrite Ascii.eqb_refl, IH]).
  assert (Hd : drop (String.length l) (l ++ t) = t)
    by (clear Hs; induction l as [|c l IH]; simpl; [reflexivity | exact IH]).
  now rewrite Hs, Hd.
Qed.

(** One step of the matcher when the first candidate of the first token
    lets the rest of the pattern match. *)
Lemma re_match_step (t : token) (p : pattern) (m r : string)
  (l : list (string * string)) (g : match_object) (rest : string) :
  candidates t (m ++ r) = (m, r) :: l ->
  re_match p r = Some (g, rest) ->
  re_match (t :: p) (m ++ r) = Some ((captured t m ++ g)%list, rest).
Proof.
  intros Hc Hp. rewrite re_match_cons, Hc.
  apply first_some_head. cbn [fst snd]. now rewrite Hp.
Qed.

(** A well-formed variant line matches the variant pattern, with the
    identifier and the value as the two groups and the text after the line
    as the rest. *)
Lemma variant_pattern_complete (sp id val rest : string) :
  all_chars (in_charset Space) sp = true ->
  is_identifier id = true -> is_line_text val = true ->
  re_match _PATTERN_VARIANT (variant_line sp id val ++ rest)
  = Some ([("ident", id); ("value", val)], rest).
Proof.
  intros Hsp Hid Hval. unfold variant_line, _PATTERN_VARIANT.
  rewrite !append_assoc.
  assert (Hvalue :
    re_match [Group "value" (LazyPlus Dot); Lit ("," ++ nl)]
      (val ++ "," ++ nl ++ rest) = Some ([("value", val)], rest)).
  { rewrite re_match_cons. cbn [candidates].
    apply lazy_value_first;
      [intros m r Hr; cbn [snd re_match candidates]; now rewrite Hr
      | exact Hval | reflexivity]. }
  destruct (@candidates_star_head Space sp
              (id ++ " = " ++ val ++ "," ++ nl ++ rest)
              Hsp (@identifier_head id _ Hid)) as [l1 Hl1].
  unfold is_identifier in Hid. apply andb_prop in Hid as [Hne Hall].
  destruct (@candidates_plus_head Word id (" = " ++ val ++ "," ++ nl ++ rest)
              Hne Hall eq_refl) as [l2 Hl2].
  apply (@re_match_step (Star Space) _ _ _ _ [("ident", id); ("value", val)] _ Hl1).
  apply (@re_match_step (Group "ident" (Plus Word)) _ _ _ _ [("value", val)] _ Hl2).
  apply (@re_match_step (Lit " = ") _ _ _ _ [("value", val)] _
           (candidates_lit " = " _)).
  exact Hvalue.
Qed.

(** A well-formed header line matches the header pattern. *)
Lemma enum_pattern_complete (sp id rest : string) :
  all_chars (in_charset Space) sp = true -> is_identifier id = true ->
  re_match _PATTERN_ENUM_OPEN (enum_header sp id ++ rest)
  = Some ([("ident", id)], rest).
Proof.
  intros Hsp Hid. unfold enum_header, _PATTERN_ENUM_OPEN.
  rewrite !append_assoc.
  destruct (@candidates_star_head Space sp
              ("export enum " ++ id ++ " {" ++ nl ++ rest) Hsp eq_refl)
    as [l1 Hl1].
  unfold is_identifier in Hid. apply andb_prop in Hid as [Hne Hall].
  destruct (@candidates_plus_head Word id (" {" ++ nl ++ rest) Hne Hall eq_refl)
    as [l2 Hl2].
  apply (@re_match_step (Star Space) _ _ _ _ [("ident", id)] _ Hl1).
  apply (@re_match_step (Lit "export enum ") _ _ _ _ [("ident", id)] _
           (candidates_lit "export enum " _)).
  apply (@re_match_step (Group "ident" (Plus Word)) _ _ _ _ [] _ Hl2).
  apply (@re_match_step (Lit (" {" ++ nl)) _ _ _ _ [] _
           (candidates_lit (" {" ++ nl) _)).
  reflexivity.
Qed.

(** ** Well-formed lines are parsed *)

(** X3.  When the text after the documentation starts with a variant line,
    that is spaces, a non-empty run of word characters, [ = ], a non-empty
    value without a line feed (commas allowed), a comma and a line feed,
    [Variant.consume] returns the variant with exactly that identifier and
    that value, and the text after the line with its empty lines skipped. *)
Theorem variant_line_parses {H : Helpers}
  (s : string) (doc : option (list string)) (sp id val rest : string) :
  Documented_consume s = (doc, variant_line sp id val ++ rest) ->
  all_chars (in_charset Space) sp = true ->
  is_identifier id = true -> is_line_text val = true ->
  Variant.consume s = OK (Variant.Build doc id val, consume_empty_lines rest).
Proof.
  intros Hdoc Hsp Hid Hval. unfold Variant.consume, consume_match.
  rewrite Hdoc, (@variant_pattern_complete sp id val rest Hsp Hid Hval).
  reflexivity.
Qed.

(** A value with commas inside, after an indentation of two spaces. *)
Lemma variant_line_parses_witness :
  Variant.consume (H := SpecModel.helpers)
    ("  pair = 1,2," ++ nl ++ nl ++ "  next = 3," ++ nl)
  = OK (Variant.Build None "pair" "1,2", "  next = 3," ++ nl).
Proof.
  apply (@variant_line_parses SpecModel.helpers
           ("  pair = 1,2," ++ nl ++ nl ++ "  next = 3," ++ nl)
           None "  " "pair" "1,2" (nl ++ "  next = 3," ++ nl));
    reflexivity.
Defined.

(** ** The loop over the body *)

Lemma parses_in_order_upto {H : Helpers} (body : string) (vs : list Variant.t) :
  parses_in_order body vs -> parses_upto body vs "".
Proof. induction 1; now constructor. Qed.

(** The loop runs through the pieces that parse and goes on from the text
    after them with their variants appended. *)
Lemma consume_body_upto {H : Helpers}
  (body left : string) (vs : list Variant.t) :
  parses_upto body vs left ->
  forall (fuel : nat) (acc : list Variant.t),
    String.length body <= fuel ->
    exists fuel',
      String.length left <= fuel'
      /\ JsEnum.consume_body fuel body acc
         = JsEnum.consume_body fuel' left (acc ++ vs)%list.
Proof.
  induction 1 as [left | piece rest left v vs Hpiece Hv _ IH];
    intros fuel acc Hlen.
  - exists fuel. now rewrite List.app_nil_r.
  - apply nonempty_length in Hpiece as Hpos.
    rewrite length_append in Hlen.
    destruct fuel as [|fuel]; [lia |].
    destruct (IH fuel (acc ++ [v])%list ltac:(lia)) as (fuel' & Hlen' & Heq).
    exists fuel'. split; [exact Hlen' |].
    cbn [JsEnum.consume_body].
    assert (Hne : nonempty (piece ++ rest) = true)
      by (destruct piece; [discriminate | reflexivity]).
    rewrite Hne, Hv, Heq. now rewrite <- List.app_assoc.
Qed.

Lemma consume_body_complete {H : Helpers} (body : string) (vs : list Variant.t) :
  parses_in_order body vs ->
  JsEnum.consume_body (String.length body) body [] = Some (OK vs).
Proof.
  intros Hp%parses_in_order_upto.
  destruct (@consume_body_upto H _ _ _ Hp _ [] (le_n _)) as (fuel' & _ & ->).
  now destruct fuel'.
Qed.

Lemma consume_body_aborts {H : Helpers}
  (body bad : string) (vs : list Variant.t) (x : exn) :
  parses_upto body vs bad -> nonempty bad = true ->
  Variant.consume bad = Raise x ->
  JsEnum.consume_body (String.length body) body [] = Some (Raise x).
Proof.
  intros Hp Hne Hbad.
  destruct (@consume_body_upto H _ _ _ Hp _ [] (le_n _)) as (fuel' & Hlen & ->).
  apply nonempty_length in Hne as Hpos.
  destruct fuel' as [|fuel']; [lia |].
  cbn [JsEnum.consume_body]. now rewrite Hne, Hbad.
Qed.

(** What [JsEnum.consume] does up to the loop, on a well-formed header. *)
Lemma JsEnum_consume_header {H : Helpers}
  (s : string) (doc : option (list string)) (sp id rest body after : string) :
  Documented_consume s = (doc, enum_header sp id ++ rest) ->
  all_chars (in_charset Space) sp = true -> is_identifier id = true ->
  read_until_closing_bracket (consume_empty_lines rest) = OK (body, after) ->
  JsEnum.consume s
  = match JsEnum.consume_body (String.length body) body [] with
    | None => None
    | Some (Raise e) => Some (Raise e)
    | Some (OK variants) =>
        Some (OK (JsEnum.Build doc id variants, consume_empty_lines after))
    end.
Proof.
  intros Hdoc Hsp Hid Hread. unfold JsEnum.consume, consume_match.
  rewrite Hdoc, (@enum_pattern_complete sp id rest Hsp Hid).
  change (group [("ident", id)] "ident") with (OK id).
  now rewrite Hread.
Qed.

(** X4.  The converse of the order property: when the text after the
    documentation starts with a well-formed header line, the bracketed body
    is read, and the body is a sequence of pieces that parse in order to
    the variants [vs], [JsEnum.consume] returns the enum with the
    documentation, the identifier of the header and exactly the variants
    [vs], and the text after the closing bracket. *)
Theorem enum_source_parses {H : Helpers}
  (s : string) (doc : option (list string)) (sp id rest body after : string)
  (vs : list Variant.t) :
  Documented_consume s = (doc, enum_header sp id ++ rest) ->
  all_chars (in_charset Space) sp = true -> is_identifier id = true ->
  read_until_closing_bracket (consume_empty_lines rest) = OK (body, after) ->
  parses_in_order body vs ->
  JsEnum.consume s
  = Some (OK (JsEnum.Build doc id vs, consume_empty_lines after)).
Proof.
  intros Hdoc Hsp Hid Hread Hbody.
  rewrite (@JsEnum_consume_header H s doc sp id rest body after Hdoc Hsp Hid Hread).
  now rewrite (@consume_body_complete H _ _ Hbody).
Qed.

(** The source of [Color] is accepted as the enum [Color]. *)
Lemma enum_source_parses_witness :
  JsEnum.consume (H := SpecModel.helpers) color_source = Some (OK (color, "rest")).
Proof.
  apply (@enum_source_parses SpecModel.helpers color_source
           (Some [" The colours."; " Two of them."]) "" "Color"
           ("  Red = " ++ quoted "red" ++ "," ++ nl ++
            "  // blue" ++ nl ++
            "  dark_blue = " ++ quoted "blue" ++ "," ++ nl ++
            "}" ++ nl ++ nl ++ "rest")
           ("  Red = " ++ quoted "red" ++ "," ++ nl ++
            "  // blue" ++ nl ++
            "  dark_blue = " ++ quoted "blue" ++ "," ++ nl)
           (nl ++ nl ++ "rest")
           [red; dark_blue]); try reflexivity.
  apply (@parsed_next SpecModel.helpers
           ("  Red = " ++ quoted "red" ++ "," ++ nl)
           ("  // blue" ++ nl ++ "  dark_blue = " ++ quoted "blue" ++ "," ++ nl)
           red [dark_blue]); try reflexivity.
  apply (@parsed_next SpecModel.helpers
           ("  // blue" ++ nl ++ "  dark_blue = " ++ quoted "blue" ++ "," ++ nl)
           "" dark_blue []); try reflexivity.
  constructor.
Defined.

(** X5.  A line of the body that [Variant.consume] rejects aborts the whole
    enum: when the body starts with pieces that parse and the non-empty
    text left after them makes [Variant.consume] raise, [JsEnum.consume]
    raises that same exception, whatever was parsed before; no enum is
    returned. *)
Theorem malformed_line_aborts_enum {H : Helpers}
  (s : string) (doc : option (list string)) (sp id rest body after bad : string)
  (vs : list Variant.t) (x : exn) :
  Documented_consume s = (doc, enum_header sp id ++ rest) ->
  all_chars (in_charset Space) sp = true -> is_identifier id = true ->
  read_until_closing_bracket (consume_empty_lines rest) = OK (body, after) ->
  parses_upto body vs bad -> nonempty bad = true ->
  Variant.consume bad = Raise x ->
  JsEnum.consume s = Some (Raise x).
Proof.
  intros Hdoc Hsp Hid Hread Hbody Hne Hbad.
  rewrite (@JsEnum_consume_header H s doc sp id rest body after Hdoc Hsp Hid Hread).
  now rewrite (@consume_body_aborts H body bad vs x Hbody Hne Hbad).
Qed.

(** The second line of the body has no comma: [Low] is parsed, then the
    enum is rejected. *)
Lemma malformed_line_aborts_enum_witness :
  JsEnum.consume (H := SpecModel.helpers)
    ("export enum Level {" ++ nl ++ "  Low = 0," ++ nl ++ "  High = 1" ++ nl
       ++ "}" ++ nl)
  = Some (Raise ParseError).
Proof.
  apply (@malformed_line_aborts_enum SpecModel.helpers _ None "" "Level"
           ("  Low = 0," ++ nl ++ "  High = 1" ++ nl ++ "}" ++ nl)
           ("  Low = 0," ++ nl ++ "  High = 1" ++ nl)
           nl
           ("  High = 1" ++ nl)
           [low] ParseError); try reflexivity.
  apply (@upto_next SpecModel.helpers ("  Low = 0," ++ nl) ("  High = 1" ++ nl)
           ("  High = 1" ++ nl) low []); try reflexivity.
  constructor.
Defined.

(** X6.  An enum with nothing between its brackets is accepted by the
    parser, as an enum without variants, and that enum cannot be emitted:
    [to_rust] raises the [ValueError] of the inference. *)
Theorem empty_body_parses_not_emitted {H : Helpers}
  (s : string) (doc : option (list string)) (sp id rest after : string) :
  Documented_consume s = (doc, enum_header sp id ++ rest) ->
  all_chars (in_charset Space) sp = true -> is_identifier id = true ->
  read_until_closing_bracket (consume_empty_lines rest) = OK ("", after) ->
  JsEnum.consume s
  = Some (OK (JsEnum.Build doc id [], consume_empty_lines after))
  /\ JsEnum.to_rust (JsEnum.Build doc id [])
     = Raise (ValueError "can't infer value type for empty enum").
Proof.
  intros Hdoc Hsp Hid Hread. split; [| reflexivity].
  now rewrite (@JsEnum_consume_header H s doc sp id rest "" after Hdoc Hsp Hid Hread).
Qed.

Lemma empty_body_parses_not_emitted_witness :
  JsEnum.consume (H := SpecModel.helpers) ("export enum Nothing {" ++ nl ++ "}" ++ nl)
  = Some (OK (JsEnum.Build None "Nothing" [], ""))
  /\ JsEnum.to_rust (H := SpecModel.helpers) (JsEnum.Build None "Nothing" [])
     = Raise (ValueError "can't infer value type for empty enum").
Proof.
  apply (@empty_body_parses_not_emitted SpecModel.helpers _ None "" "Nothing"
           ("}" ++ nl) nl); reflexivity.
Defined.

(** ** What a parsed enum holds *)

Lemma consume_body_well_formed {H : Helpers}
  (fuel : nat) (body : string) (acc vs : list Variant.t) :
  JsEnum.consume_body fuel body acc = Some (OK vs) ->
  Forall well_formed acc -> Forall well_formed vs.
Proof.
  revert body acc. induction fuel as [|fuel IH]; intros body acc;
    cbn [JsEnum.consume_body]; destruct (nonempty body);
    try discriminate; try (now intros [= <-]).
  destruct (Variant.consume body) as [[v body']|e] eqn:Hv; [| discriminate].
  intros Hb Hacc. apply (IH _ _ Hb). apply Forall_app. split; [exact Hacc |].
  apply Variant_consume_inv in Hv
    as (sp & rest & _ & _ & _ & _ & [Hi1 Hi2] & [Hv1 Hv2]).
  constructor; [| constructor].
  unfold well_formed, is_identifier, is_line_text.
  now rewrite Hi1, Hi2, Hv1, Hv2.
Qed.

(** X7.  Every enum [JsEnum.consume] returns has an identifier that is a
    non-empty run of word characters, and each of its variants has such an
    identifier and a non-empty value without a line feed. *)
Theorem parsed_enum_well_formed {H : Helpers}
  (s rest : string) (e : JsEnum.t) :
  JsEnum.consume s = Some (OK (e, rest)) ->
  is_identifier (JsEnum.ident e) = true
  /\ Forall well_formed (JsEnum.variants e).
Proof.
  unfold JsEnum.consume, consume_match.
  destruct (Documented_consume s) as [doc s1].
  destruct (re_match _PATTERN_ENUM_OPEN s1) as [[m s2]|] eqn:Hm;
    [| discriminate].
  apply enum_pattern_sound in Hm as (sp & id & -> & -> & _ & [Hi1 Hi2]).
  change (group [("ident", id)] "ident") with (OK id).
  destruct (read_until_closing_bracket _) as [[body after]|]; [| discriminate].
  destruct (JsEnum.consume_body _ body []) as [[vs|x]|] eqn:Hb;
    try discriminate.
  intros [= <- _]. cbn [JsEnum.ident JsEnum.variants]. split.
  - unfold is_identifier. now rewrite Hi1, Hi2.
  - apply (@consume_body_well_formed H _ _ _ _ Hb). constructor.
Qed.

Lemma parsed_enum_well_formed_witness :
  is_identifier "Color" = true /\ Forall well_formed [red; dark_blue].
Proof.
  apply (@parsed_enum_well_formed SpecModel.helpers color_source "rest" color).
  reflexivity.
Defined.

(** ** More on the inference *)

Lemma py_type_eqb_eq (a b : py_type) : py_type_eqb a b = true -> a = b.
Proof. now destruct a, b. Qed.

Lemma all_same_true_inv (t : py_type) (it : list Variant.t) :
  fst (JsEnum.all_same t it) = OK true ->
  Forall (fun x => Variant.get_value_type x = OK t) it.
Proof.
  induction it as [|v it IH]; cbn [JsEnum.all_same]; [constructor |].
  destruct (Variant.get_value_type v) as [ty|x] eqn:Hv; [| discriminate].
  destruct (py_type_eqb ty t) eqn:Hty; [| discriminate].
  apply py_type_eqb_eq in Hty as ->. intros Hit. constructor; auto.
Qed.

(** X8.  Inference returns a type exactly for the enums that have at least
    one variant and whose variants all classify with that type. *)
Theorem inference_returns_iff_uniform (e : JsEnum.t) (t : py_type) :
  JsEnum.get_value_type e = OK t
  <-> JsEnum.variants e <> []
      /\ Forall (fun x => Variant.get_value_type x = OK t) (JsEnum.variants e).
Proof.
  unfold JsEnum.get_value_type, JsEnum.run_get_value_type.
  destruct (JsEnum.variants e) as [|v it]; cbn [fst].
  - split; [discriminate | now intros [Hne _]].
  - split.
    + destruct (Variant.get_value_type v) as [ty|x] eqn:Hv; [| discriminate].
      destruct (JsEnum.all_same ty it) as [[[|]|x] it'] eqn:Hall;
        try discriminate.
      cbn [fst]. intros [= ->]. split; [discriminate |].
      constructor; [exact Hv |].
      apply all_same_true_inv. now rewrite Hall.
    + intros [_ Hall]. inversion Hall as [|? ? Hv Hit]; subst.
      now rewrite Hv, (all_same_true Hit).
Qed.

(** X9.  A variant that does not classify stops the inference with its own
    [TypeError] when every variant before it classifies with one type: the
    error is the classifier's, not the conflict error, and the variants
    after it, conflicting or not, are never classified. *)
Theorem classification_failure_propagates
  (doc : option (list string)) (ident : string) (t : py_type)
  (before : list Variant.t) (v : Variant.t) (after : list Variant.t) (x : exn) :
  Forall (fun y => Variant.get_value_type y = OK t) before ->
  Variant.get_value_type v = Raise x ->
  JsEnum.run_get_value_type (JsEnum.Build doc ident (before ++ v :: after))
  = (Raise x, after).
Proof.
  intros Hbefore Hv. unfold JsEnum.run_get_value_type. cbn [JsEnum.variants].
  destruct Hbefore as [|first same Hfirst Hsame]; cbn [app].
  - now rewrite Hv.
  - rewrite Hfirst, (all_same_skip _ Hsame). cbn [JsEnum.all_same].
    now rewrite Hv.
Qed.

(** [Unknown = -1] after [Low = 0], with the string variant [Red] behind. *)
Lemma classification_failure_propagates_witness :
  JsEnum.run_get_value_type (JsEnum.Build None "Level" [low; unknown; red])
  = (Raise (TypeError "can't infer value type for variant"), [red]).
Proof.
  apply (@classification_failure_propagates None "Level" int [low] unknown [red]).
  - repeat constructor.
  - reflexivity.
Defined.

Lemma classify_by_value (v w : Variant.t) :
  Variant.value v = Variant.value w ->
  Variant.get_value_type v = Variant.get_value_type w.
Proof. unfold Variant.get_value_type. now intros ->. Qed.

Lemma all_same_by_values (t : py_type) (vs ws : list Variant.t) :
  map Variant.value vs = map Variant.value ws ->
  fst (JsEnum.all_same t vs) = fst (JsEnum.all_same t ws).
Proof.
  revert ws. induction vs as [|v vs IH]; intros [|w ws]; try discriminate;
    [reflexivity |].
  cbn [map]. intros [= Hv Hvs]. cbn [JsEnum.all_same].
  rewrite (classify_by_value v w Hv).
  destruct (Variant.get_value_type w) as [ty|x]; [| reflexivity].
  destruct (py_type_eqb ty t); [now apply IH | reflexivity].
Qed.

(** In the model an exception is its class and the fixed part of its
    message, so here the outcomes are equal also when they are raises. *)
Lemma get_value_type_by_values (e f : JsEnum.t) :
  map Variant.value (JsEnum.variants e) = map Variant.value (JsEnum.variants f) ->
  JsEnum.get_value_type e = JsEnum.get_value_type f.
Proof.
  unfold JsEnum.get_value_type, JsEnum.run_get_value_type.
  destruct (JsEnum.variants e) as [|v vs], (JsEnum.variants f) as [|w ws];
    try discriminate; [reflexivity |].
  cbn [map]. intros [= Hv Hvs].
  rewrite (classify_by_value v w Hv).
  destruct (Variant.get_value_type w) as [ty|x]; [| reflexivity].
  pose proof (all_same_by_values ty vs ws Hvs) as Hall.
  destruct (JsEnum.all_same ty vs) as [[[|]|x] r1],
           (JsEnum.all_same ty ws) as [[[|]|y] r2];
    cbn [fst] in *; congruence.
Qed.

Lemma same_class_refl (x : exn) : same_class x x.
Proof. now destruct x. Qed.

(** X10.  Inference decides on the values alone: of two enums whose
    variants have the same values in the same order, whatever their
    identifiers and documentation, one is inferred a type exactly when the
    other is inferred that type, one raises exactly when the other raises,
    and the two exceptions are then of the same class.  (The messages end
    with the [repr] of the enum or variant and differ with it.) *)
Theorem inference_reads_values_only (e f : JsEnum.t) :
  map Variant.value (JsEnum.variants e) = map Variant.value (JsEnum.variants f) ->
  (forall t, JsEnum.get_value_type e = OK t <-> JsEnum.get_value_type f = OK t)
  /\ ((exists x, JsEnum.get_value_type e = Raise x)
      <-> (exists y, JsEnum.get_value_type f = Raise y))
  /\ (forall x y, JsEnum.get_value_type e = Raise x ->
                  JsEnum.get_value_type f = Raise y -> same_class x y).
Proof.
  intros Heq%get_value_type_by_values. rewrite Heq. repeat split; trivial.
  intros x y -> [= <-]. apply same_class_refl.
Qed.

(** [Color] beside an enum with other names and documentation, and two
    enums that raise at variants of different names. *)
Lemma inference_reads_values_only_witness :
  (JsEnum.get_value_type color = OK str
   <-> JsEnum.get_value_type
         (JsEnum.Build None "Other"
            [Variant.Build (Some ["x"]) "a" (quoted "red");
             Variant.Build None "b" (quoted "blue")]) = OK str)
  /\ same_class (TypeError "can't infer value type for variant")
                (TypeError "can't infer value type for variant").
Proof.
  destruct (@inference_reads_values_only color
              (JsEnum.Build None "Other"
                 [Variant.Build (Some ["x"]) "a" (quoted "red");
                  Variant.Build None "b" (quoted "blue")]) eq_refl)
    as [Hok _].
  destruct (@inference_reads_values_only
              (JsEnum.Build None "Level" [low; unknown])
              (JsEnum.Build (Some ["doc"]) "Other"
                 [Variant.Build (Some ["zero"]) "Zero" "0";
                  Variant.Build None "Missing" "-1"]) eq_refl)
    as (_ & _ & Hclass).
  split; [apply Hok | apply (Hclass _ _ eq_refl eq_refl)].
Defined.

Lemma all_chars_split (p : ascii -> bool) (pre post : string) (c : ascii) :
  p c = false -> all_chars p (pre ++ String c post) = false.
Proof.
  intros Hc. rewrite all_chars_app. cbn [all_chars]. rewrite Hc.
  now rewrite andb_false_r.
Qed.

(** X11.  A value that does not start with a double quote and holds a
    character that is not numeric, anywhere, is rejected with [TypeError]:
    so are signed numbers, fractions written with a point, and names. *)
Theorem non_numeric_literal_rejected (v : Variant.t) (pre post : string) (c : ascii) :
  Variant.value v = pre ++ String c post ->
  isnumeric_char c = false ->
  startswith (Variant.value v) (String DQUOTE "") = false ->
  Variant.get_value_type v = Raise (TypeError "can't infer value type for variant").
Proof.
  intros Hval Hc Hq. unfold Variant.get_value_type. rewrite Hq.
  assert (Hn : isnumeric (Variant.value v) = false).
  { rewrite Hval. unfold isnumeric.
    destruct (pre ++ String c post) eqn:Hs; [reflexivity |].
    rewrite <- Hs. now apply all_chars_split. }
  now rewrite Hn.
Qed.

(** The values [-1] and [1.5]. *)
Lemma non_numeric_literal_rejected_witness :
  Variant.get_value_type unknown
  = Raise (TypeError "can't infer value type for variant")
  /\ Variant.get_value_type (Variant.Build None "Ratio" "1.5")
     = Raise (TypeError "can't infer value type for variant").
Proof.
  split.
  - apply (@non_numeric_literal_rejected unknown "" "1" "-"%char); reflexivity.
  - apply (@non_numeric_literal_rejected (Variant.Build None "Ratio" "1.5")
             "1" "5" "."%char); reflexivity.
Defined.

(** ** Which exceptions are raised *)

Lemma consume_body_raises {H : Helpers}
  (fuel : nat) (body : string) (acc : list Variant.t) (x : exn) :
  (forall s y, Variant.consume s = Raise y -> y = ParseError) ->
  JsEnum.consume_body fuel body acc = Some (Raise x) -> x = ParseError.
Proof.
  intros Hvariant. revert body acc.
  induction fuel as [|fuel IH]; intros body acc;
    cbn [JsEnum.consume_body]; destruct (nonempty body); try discriminate.
  destruct (Variant.consume body) as [[v body']|y] eqn:Hv.
  - apply IH.
  - intros [= <-]. exact (Hvariant _ _ Hv).
Qed.

Lemma Variant_consume_raises {H : Helpers} (s : string) (x : exn) :
  Variant.consume s = Raise x -> x = ParseError.
Proof.
  unfold Variant.consume, consume_match.
  destruct (Documented_consume s) as [doc s1].
  destruct (re_match _PATTERN_VARIANT s1) as [[g rest]|] eqn:Hm.
  - apply variant_pattern_sound in Hm as (sp & id & val & _ & -> & _).
    discriminate.
  - now intros [= <-].
Qed.

(** X12.  The only exception [Variant.consume] raises is [ParseError]:
    the two group lookups on the match never fail.  [JsEnum.consume] raises
    [ParseError], from the header or from a line of the body, or else what
    [read_until_closing_bracket] raised. *)
Theorem parsers_raise_parse_error {H : Helpers} (s : string) (x : exn) :
  (Variant.consume s = Raise x -> x = ParseError)
  /\ (JsEnum.consume s = Some (Raise x) ->
      x = ParseError \/ exists t, read_until_closing_bracket t = Raise x).
Proof.
  split; [apply Variant_consume_raises |].
  unfold JsEnum.consume, consume_match.
  destruct (Documented_consume s) as [doc s1].
  destruct (re_match _PATTERN_ENUM_OPEN s1) as [[m s2]|] eqn:Hm.
  - apply enum_pattern_sound in Hm as (sp & id & _ & -> & _).
    change (group [("ident", id)] "ident") with (OK id).
    destruct (read_until_closing_bracket (consume_empty_lines s2))
      as [[body after]|y] eqn:Hr.
    + destruct (JsEnum.consume_body _ body []) as [[vs|y]|] eqn:Hb;
        try discriminate.
      intros [= <-]. left.
      exact (consume_body_raises _ _ _ Variant_consume_raises Hb).
    + intros [= <-]. right. eauto.
  - intros [= <-]. now left.
Qed.

(** A body line without its comma, and an enum without closing bracket. *)
Lemma parsers_raise_parse_error_witness :
  ParseError = ParseError
  /\ (ParseError = ParseError
      \/ exists t, SpecModel.read_until_closing_bracket t = Raise ParseError).
Proof.
  destruct (@parsers_raise_parse_error SpecModel.helpers
              ("  High = 1" ++ nl) ParseError) as [Hvariant _].
  destruct (@parsers_raise_parse_error SpecModel.helpers
              ("export enum Level {" ++ nl ++ "  Low = 0," ++ nl) ParseError)
    as [_ Henum].
  split; [apply Hvariant | apply Henum]; reflexivity.
Defined.

(** X13.  Emission raises nothing but the three errors of the inference:
    the [ValueError] of the empty enum, the classifier's [TypeError] and
    the [TypeError] of conflicting types.  The lookup in [_TYPE2MACRO]
    never raises [KeyError]. *)
Theorem emission_raises_inference_errors {H : Helpers} (e : JsEnum.t) (x : exn) :
  JsEnum.to_rust e = Raise x ->
  JsEnum.get_value_type e = Raise x
  /\ (x = ValueError "can't infer value type for empty enum"
      \/ x = TypeError "can't infer value type for variant"
      \/ x = TypeError "enum has multiple conflicting value types").
Proof.
  unfold JsEnum.to_rust, JsEnum.macro.
  destruct (JsEnum.get_value_type e) as [[|]|y] eqn:Hty; try discriminate.
  cbn [bind]. intros [= <-]. split; [reflexivity |].
  unfold JsEnum.get_value_type, JsEnum.run_get_value_type in Hty.
  destruct (JsEnum.variants e) as [|v it]; cbn [fst] in Hty.
  - injection Hty as <-. now left.
  - assert (Hclassify : forall w z, Variant.get_value_type w = Raise z ->
                        z = TypeError "can't infer value type for variant").
    { intros w z. unfold Variant.get_value_type.
      destruct (startswith _ _); [discriminate |].
      destruct (isnumeric _); [discriminate | now intros [= <-]]. }
    destruct (Variant.get_value_type v) as [ty|z] eqn:Hv.
    + assert (Hall : forall z, fst (JsEnum.all_same ty it) = Raise z ->
                     z = TypeError "can't infer value type for variant").
      { clear Hty. induction it as [|w it IH]; cbn [JsEnum.all_same];
          [discriminate |].
        destruct (Variant.get_value_type w) as [tw|z'] eqn:Hw.
        - destruct (py_type_eqb tw ty); [exact IH | discriminate].
        - intros z [= <-]. exact (Hclassify _ _ Hw). }
      destruct (JsEnum.all_same ty it) as [[[|]|z] it'];
        cbn [fst] in *; try discriminate.
      * injection Hty as <-. now right; right.
      * injection Hty as <-. right; left. now apply Hall.
    + cbn [fst] in Hty. injection Hty as <-. right; left.
      exact (Hclassify _ _ Hv).
Qed.

Lemma emission_raises_inference_errors_witness :
  JsEnum.get_value_type (JsEnum.Build None "Level" [low; red])
  = Raise (TypeError "enum has multiple conflicting value types")
  /\ (TypeError "enum has multiple conflicting value types"
      = ValueError "can't infer value type for empty enum"
      \/ TypeError "enum has multiple conflicting value types"
         = TypeError "can't infer value type for variant"
      \/ TypeError "enum has multiple conflicting value types"
         = TypeError "enum has multiple conflicting value types").
Proof.
  apply (@emission_raises_inference_errors SpecModel.helpers
           (JsEnum.Build None "Level" [low; red])).
  reflexivity.
Defined.

(** X14.  The indentation of a variant line is made of spaces only: when
    the text after the documentation is empty or starts with a character
    that is neither a space nor a word character, a tab for one,
    [Variant.consume] raises [ParseError]. *)
Theorem variant_line_start_rejected {H : Helpers} (s : string) :
  head_in Space (snd (Documented_consume s)) = false ->
  head_in Word (snd (Documented_consume s)) = false ->
  Variant.consume s = Raise ParseError.
Proof.
  unfold Variant.consume, consume_match.
  destruct (Documented_consume s) as [doc s1]. cbn [snd]. intros Hspace Hword.
  destruct (re_match _PATTERN_VARIANT s1) as [[g rest]|] eqn:Hm; [| reflexivity].
  apply variant_pattern_sound in Hm
    as (sp & id & val & -> & _ & Hsp & [Hne Hid] & _).
  destruct sp as [|c sp].
  - destruct id as [|c id]; [discriminate |].
    cbn [all_chars] in Hid. apply andb_prop in Hid as [Hc _].
    cbn [append head_in] in Hword. congruence.
  - cbn [all_chars] in Hsp. apply andb_prop in Hsp as [Hc _].
    cbn [append head_in] in Hspace. congruence.
Qed.

(** A line indented with a tab. *)
Lemma variant_line_start_rejected_witness :
  Variant.consume (H := SpecModel.helpers)
    (String "009" ("Low = 0," ++ nl))
  = Raise ParseError.
Proof.
  apply (@variant_line_start_rejected SpecModel.helpers); reflexivity.
Defined.
